(** * streamlit_app.py: the data-access and caching layer

    A shallow embedding of the data operations of [streamlit_app.py]
    ([get_databricks_connection], [submit_financial_data], [fetch_all_data],
    [get_summary_stats], the submit branch of [show_data_entry_form] and the
    refresh button of [main]) together with the three things they rest on:
    [uuid.uuid4().hex], the two SQL statements, and Streamlit's
    [st.cache_resource] / [st.cache_data] memoisation.

    Conventions of the model.
    - Python numbers ([revenue], [expenses], [profit_margin]) and the DOUBLE
      columns they are stored in are exact rationals ([Q]); IEEE rounding is
      outside the model, equalities between amounts are [Qeq].
    - A Python exception is its message ([str(e)]); a computation either
      returns or raises, and its effects on the state survive a raise.
    - Timestamps and the cache timer are integers (microseconds). *)

From Stdlib Require Import List String Ascii Bool Arith ZArith NArith QArith.
From Stdlib Require Import Permutation Sorted Lia.
Import ListNotations.

Local Open Scope string_scope.

(* ================================================================== *)
(** ** [uuid.uuid4().hex] and the submission id *)

Module Uuid.

Local Open Scope N_scope.

(** [UUID(bytes=os.urandom(16), version=4)]: the 128-bit integer read from
    the random bytes, with the RFC 4122 variant and the version nibble
    forced:
<<
    int &= ~(0xc000 << 48);  int |= 0x8000 << 48
    int &= ~(0xf000 << 64);  int |= version << 76
>> *)
Definition uuid4 (urandom : N) : N :=
  let int := urandom mod 2 ^ 128 in
  let int := N.ldiff int (N.shiftl 0xc000 48) in
  let int := N.lor int (N.shiftl 0x8000 48) in
  let int := N.ldiff int (N.shiftl 0xf000 64) in
  N.lor int (N.shiftl 4 76).

(** One digit of the [%x] conversion. *)
Definition hex_char (d : N) : ascii :=
  match String.get (N.to_nat (d mod 16)) "0123456789abcdef" with
  | Some c => c
  | None => "0"%char
  end.

(** The [k] low hexadecimal digits of [n], most significant first, put in
    front of [acc]. *)
Fixpoint hex_digits (k : nat) (n : N) (acc : string) : string :=
  match k with
  | O => acc
  | S k' => hex_digits k' (n / 16) (String (hex_char n) acc)
  end.

(** [UUID.hex]: ['%032x' % self.int]. *)
Definition hex (int : N) : string := hex_digits 32 int "".

End Uuid.

(** [f"sub_{uuid.uuid4().hex[:8]}"], as a function of the random bytes. *)
Definition submission_id (urandom : N) : string :=
  "sub_" ++ substring 0 8 (Uuid.hex (Uuid.uuid4 urandom)).

(** The pattern [sub_[0-9a-f]{8}], matched against the whole string. *)
Definition is_lower_hex (c : ascii) : bool :=
  let n := nat_of_ascii c in
  ((48 <=? n) && (n <=? 57) || (97 <=? n) && (n <=? 102))%nat.

Fixpoint all_chars (p : ascii -> bool) (s : string) : bool :=
  match s with
  | EmptyString => true
  | String c s' => p c && all_chars p s'
  end.

Definition matches_submission_pattern (s : string) : bool :=
  match s with
  | String "s" (String "u" (String "b" (String "_" rest))) =>
      (String.length rest =? 8)%nat && all_chars is_lower_hex rest
  | _ => false
  end.

(* ================================================================== *)
(** ** Data model: the [financial_submissions] table and the summary *)

Local Open Scope Q_scope.

(** One row of [financial_submissions], columns in the order of the INSERT. *)
Module Submission.
Record t : Type := mk {
  submission_id : string;
  business_unit : string;
  submission_date : Z;
  revenue : Q;
  expenses : Q;
  profit_margin : Q;
  submitted_by : string;
  created_at : Z
}.
End Submission.

(** One row of the summary query, columns in the order of its SELECT. *)
Module Summary.
Record t : Type := mk {
  business_unit : string;
  submission_count : nat;
  total_revenue : Q;
  total_expenses : Q;
  avg_profit_margin : Q
}.

(** Two summary rows that differ only in how their amounts are written
    as fractions. *)
Definition equiv (a b : t) : Prop :=
  business_unit a = business_unit b /\
  submission_count a = submission_count b /\
  total_revenue a == total_revenue b /\
  total_expenses a == total_expenses b /\
  avg_profit_margin a == avg_profit_margin b.
End Summary.

(** [((revenue - expenses) / revenue * 100) if revenue > 0 else 0] *)
Definition profit_margin (revenue expenses : Q) : Q :=
  if Qlt_le_dec 0 revenue
  then (revenue - expenses) / revenue * 100
  else 0.

(** The options of the [st.selectbox] and the [min_value] of the two
    [st.number_input] widgets of the form. *)
Definition business_units : list string :=
  ["Sales"; "Marketing"; "Operations"; "Engineering"; "Finance"; "HR"]%string.

Definition min_value : Q := 0.

Definition form_can_produce (business_unit : string) (revenue expenses : Q)
  : Prop :=
  In business_unit business_units /\
  min_value <= revenue /\ min_value <= expenses.

(* ================================================================== *)
(** ** The two SELECT statements *)

Definition Qsum (l : list Q) : Q := fold_right Qplus 0 l.

Definition rows_of (unit : string) (table : list Submission.t)
  : list Submission.t :=
  filter (fun r => String.eqb (Submission.business_unit r) unit) table.

(** [COUNT( * )], [SUM(revenue)], [SUM(expenses)], [AVG(profit_margin)] over
    the rows of one group. *)
Definition aggregate (unit : string) (group : list Submission.t) : Summary.t :=
  Summary.mk unit
    (List.length group)
    (Qsum (map Submission.revenue group))
    (Qsum (map Submission.expenses group))
    (Qsum (map Submission.profit_margin group)
     / inject_Z (Z.of_nat (List.length group))).

(** [GROUP BY business_unit]: one aggregated row per business unit that
    occurs in the table. *)
Definition group_by_business_unit (table : list Submission.t)
  : list Summary.t :=
  map (fun unit => aggregate unit (rows_of unit table))
      (nodup string_dec (map Submission.business_unit table)).

(** [ORDER BY submission_date DESC] and [ORDER BY total_revenue DESC]. *)
Definition date_desc (a b : Submission.t) : Prop :=
  (Submission.submission_date b <= Submission.submission_date a)%Z.

Definition revenue_desc (a b : Summary.t) : Prop :=
  Summary.total_revenue b <= Summary.total_revenue a.

(** What SQL promises for
    [SELECT * FROM financial_submissions ORDER BY submission_date DESC
    LIMIT 100]:
    the first 100 rows of some ordering of the table by descending date.
    Rows with equal dates may come in any order. *)
Definition recent_query (table out : list Submission.t) : Prop :=
  exists ordered,
    Permutation table ordered /\
    StronglySorted date_desc ordered /\
    out = firstn 100 ordered.

(** What SQL promises for the summary statement: the groups, each with its
    aggregates, in some order of descending [total_revenue].  The statement
    has no second sort key, so groups with equal totals may come in any
    order. *)
Definition summary_query (table : list Submission.t) (out : list Summary.t)
  : Prop :=
  exists groups,
    Forall2 Summary.equiv (group_by_business_unit table) groups /\
    Permutation groups out /\
    StronglySorted revenue_desc out.

(** A query engine answers both statements; it conforms when its answers
    are among those SQL allows. *)
Record Engine : Type := {
  select_recent : list Submission.t -> list Submission.t;
  select_summary : list Submission.t -> list Summary.t
}.

Record conforms (E : Engine) : Prop := {
  recent_conforms : forall table, recent_query table (select_recent E table);
  summary_conforms : forall table, summary_query table (select_summary E table)
}.

(** A reference engine: a stable insertion sort on the sort key of each
    statement, over the table in insertion order and over the groups in
    order of first appearance. *)
Fixpoint insert_by {A : Type} (leb : A -> A -> bool) (x : A) (l : list A)
  : list A :=
  match l with
  | [] => [x]
  | y :: l' => if leb x y then x :: l else y :: insert_by leb x l'
  end.

Definition sort_by {A : Type} (leb : A -> A -> bool) (l : list A) : list A :=
  fold_right (insert_by leb) [] l.

Definition date_desc_b (a b : Submission.t) : bool :=
  (Submission.submission_date b <=? Submission.submission_date a)%Z.

Definition revenue_desc_b (a b : Summary.t) : bool :=
  Qle_bool (Summary.total_revenue b) (Summary.total_revenue a).

Definition reference_engine : Engine := {|
  select_recent := fun table => firstn 100 (sort_by date_desc_b table);
  select_summary := fun table =>
    sort_by revenue_desc_b (group_by_business_unit table)
|}.


(** The order with a second key: [total_revenue] descending, and among
    equal totals [business_unit] ascending. *)
Definition revenue_desc_unit_asc (a b : Summary.t) : Prop :=
  Summary.total_revenue b < Summary.total_revenue a \/
  (Summary.total_revenue a == Summary.total_revenue b /\
   String.leb (Summary.business_unit a) (Summary.business_unit b) = true).

(* ================================================================== *)
(** ** State, exceptions and the environment of a call *)

(** A live connection; the number says which [sql.connect] call made it. *)
Definition Handle : Type := nat.

(** Everything the code reads or changes: the table behind the connection,
    the three Streamlit cache entries, the messages the code has passed to
    [st.error], and two counters of the traffic to the backend ([sql.connect]
    calls and [cursor.execute] calls).  A cache hit runs none of the cached
    function's code; what Streamlit replays on the page at a hit is not
    recorded in [errors]. *)
Record State : Type := {
  table : list Submission.t;
  connection_cache : option (option Handle);
  recent_cache : option (Z * list Submission.t);
  summary_cache : option (Z * list Summary.t);
  connects : nat;
  statements : nat;
  errors : list string
}.

Definition initial (rows : list Submission.t) : State := {|
  table := rows;
  connection_cache := None;
  recent_cache := None;
  summary_cache := None;
  connects := 0;
  statements := 0;
  errors := []
|}.

Definition insert_row (row : Submission.t) (s : State) : State := {|
  table := table s ++ [row];
  connection_cache := connection_cache s;
  recent_cache := recent_cache s;
  summary_cache := summary_cache s;
  connects := connects s;
  statements := statements s;
  errors := errors s
|}.

Definition set_connection_cache (v : option (option Handle)) (s : State)
  : State := {|
  table := table s;
  connection_cache := v;
  recent_cache := recent_cache s;
  summary_cache := summary_cache s;
  connects := connects s;
  statements := statements s;
  errors := errors s
|}.

Definition set_recent_cache (v : option (Z * list Submission.t)) (s : State)
  : State := {|
  table := table s;
  connection_cache := connection_cache s;
  recent_cache := v;
  summary_cache := summary_cache s;
  connects := connects s;
  statements := statements s;
  errors := errors s
|}.

Definition set_summary_cache (v : option (Z * list Summary.t)) (s : State)
  : State := {|
  table := table s;
  connection_cache := connection_cache s;
  recent_cache := recent_cache s;
  summary_cache := v;
  connects := connects s;
  statements := statements s;
  errors := errors s
|}.

Definition count_connect (s : State) : State := {|
  table := table s;
  connection_cache := connection_cache s;
  recent_cache := recent_cache s;
  summary_cache := summary_cache s;
  connects := S (connects s);
  statements := statements s;
  errors := errors s
|}.

Definition count_statement (s : State) : State := {|
  table := table s;
  connection_cache := connection_cache s;
  recent_cache := recent_cache s;
  summary_cache := summary_cache s;
  connects := connects s;
  statements := S (statements s);
  errors := errors s
|}.

Definition show_error (message : string) (s : State) : State := {|
  table := table s;
  connection_cache := connection_cache s;
  recent_cache := recent_cache s;
  summary_cache := summary_cache s;
  connects := connects s;
  statements := statements s;
  errors := errors s ++ [message]
|}.

(** What the world does during one call: the reading of the cache timer,
    the exception (if any) each backend call raises, the bytes
    [os.urandom] hands to [uuid4], and the two readings of
    [datetime.now()]. *)
Record Env : Type := {
  timer : Z;
  connect_raises : option string;
  cursor_raises : option string;
  execute_raises : option string;
  fetchall_raises : option string;
  close_raises : option string;
  urandom : N;
  now_submission_date : Z;
  now_created_at : Z
}.

(** A computation returns a value or raises; either way it leaves a state. *)
Inductive outcome (A : Type) : Type :=
| Return (a : A)
| Raise (e : string).

Arguments Return {A} a.
Arguments Raise {A} e.

Definition M (A : Type) : Type := State -> outcome A * State.

Definition ret {A : Type} (a : A) : M A := fun s => (Return a, s).

Definition raise {A : Type} (e : string) : M A := fun s => (Raise e, s).

Definition bind {A B : Type} (c : M A) (k : A -> M B) : M B := fun s =>
  match c s with
  | (Return a, s') => k a s'
  | (Raise e, s') => (Raise e, s')
  end.

Notation "x <- c ;; k" := (bind c (fun x => k))
  (at level 61, c at next level, right associativity).
Notation "c ;; k" := (bind c (fun _ => k))
  (at level 61, right associativity).

Definition modify (f : State -> State) : M unit := fun s => (Return tt, f s).

Definition gets {A : Type} (f : State -> A) : M A := fun s => (Return (f s), s).

(** [try: body  except Exception as e: handler(str(e))] *)
Definition try_except {A : Type} (body : M A) (handler : string -> M A)
  : M A := fun s =>
  match body s with
  | (Return a, s') => (Return a, s')
  | (Raise e, s') => handler e s'
  end.

Definition may_raise (fault : option string) : M unit :=
  match fault with
  | Some e => raise e
  | None => ret tt
  end.

(* ------------------------------------------------------------------ *)
(** *** The backend: [databricks.sql] *)

(** [sql.connect(...)], the look-ups in [st.secrets] included. *)
Definition sql_connect (env : Env) : M Handle :=
  modify count_connect ;;
  may_raise (connect_raises env) ;;
  gets connects.

(** [connection.cursor()] *)
Definition connection_cursor (env : Env) (connection : Handle) : M unit :=
  may_raise (cursor_raises env).

(** [cursor.execute(INSERT ..., row)]: the row is in the table once the
    call has returned. *)
Definition execute_insert (env : Env) (row : Submission.t) : M unit :=
  modify count_statement ;;
  may_raise (execute_raises env) ;;
  modify (insert_row row).

(** [cursor.execute(SELECT ...)]: the answer to [query] on the table as it
    is now. *)
Definition execute_select {A : Type} (env : Env)
    (query : list Submission.t -> A) : M A :=
  modify count_statement ;;
  may_raise (execute_raises env) ;;
  gets (fun s => query (table s)).

(** [cursor.fetchall()] *)
Definition cursor_fetchall {A : Type} (env : Env) (result : A) : M A :=
  may_raise (fetchall_raises env) ;;
  ret result.

(** [cursor.close()] *)
Definition cursor_close (env : Env) : M unit :=
  may_raise (close_raises env).

(* ------------------------------------------------------------------ *)
(** *** Streamlit: [st.error] and the caching decorators *)

Definition st_error (message : string) : M unit :=
  modify (show_error message).

(** [@st.cache_resource] on a function without arguments: the first value
    the function returns is kept and handed out from then on; a call that
    raises stores nothing. *)
Definition cache_resource {A : Type}
    (entry : State -> option A) (store : option A -> State -> State)
    (f : M A) : M A := fun s =>
  match entry s with
  | Some v => (Return v, s)
  | None =>
      match f s with
      | (Return v, s') => (Return v, store (Some v) s')
      | (Raise e, s') => (Raise e, s')
      end
  end.

(** [ttl=30], in the unit of the timer. *)
Definition ttl : Z := 30 * 1000000.

(** [@st.cache_data(ttl=30)] on a function without arguments: a value
    returned less than [ttl] ago is handed out again; otherwise the function
    runs and what it returns is stored with the time; a call that raises
    stores nothing. *)
Definition cache_data {A : Type}
    (entry : State -> option (Z * A))
    (store : option (Z * A) -> State -> State)
    (now : Z) (f : M A) : M A := fun s =>
  let miss :=
    match f s with
    | (Return v, s') => (Return v, store (Some (now, v)) s')
    | (Raise e, s') => (Raise e, s')
    end in
  match entry s with
  | Some (stamp, v) => if (now <? stamp + ttl)%Z then (Return v, s) else miss
  | None => miss
  end.

(** [st.cache_data.clear()]: every [st.cache_data] entry goes, the
    [st.cache_resource] entry stays. *)
Definition st_cache_data_clear : M unit :=
  modify (fun s => set_summary_cache None (set_recent_cache None s)).

(* ================================================================== *)
(** ** The data operations of [streamlit_app.py] *)

Definition get_databricks_connection (env : Env) : M (option Handle) :=
  cache_resource connection_cache set_connection_cache
    (try_except
       (connection <- sql_connect env ;;
        ret (Some connection))
       (fun e =>
          st_error ("Connection failed: " ++ e) ;;
          ret None)).

Definition submit_financial_data (env : Env)
    (business_unit : string) (revenue expenses : Q) (submitted_by : string)
  : M (bool * string) :=
  connection <- get_databricks_connection env ;;
  match connection with
  | None => ret (false, "Connection failed"%string)
  | Some connection =>
      try_except
        (connection_cursor env connection ;;
         let submission_id := submission_id (urandom env) in
         let profit_margin := profit_margin revenue expenses in
         execute_insert env
           (Submission.mk submission_id business_unit (now_submission_date env)
                   revenue expenses profit_margin
                   submitted_by (now_created_at env)) ;;
         cursor_close env ;;
         ret (true, submission_id))
        (fun e => ret (false, e))
  end.

(** The frame is the list of its rows; [pd.DataFrame()] is the empty list,
    and [pd.to_numeric] leaves numeric columns as they are. *)
Definition fetch_all_data (E : Engine) (env : Env) : M (list Submission.t) :=
  cache_data recent_cache set_recent_cache (timer env)
    (connection <- get_databricks_connection env ;;
     match connection with
     | None => ret []
     | Some connection =>
         try_except
           (connection_cursor env connection ;;
            result <- execute_select env (select_recent E) ;;
            data <- cursor_fetchall env result ;;
            cursor_close env ;;
            ret data)
           (fun e =>
              st_error ("Fetch failed: " ++ e) ;;
              ret [])
     end).

Definition get_summary_stats (E : Engine) (env : Env) : M (list Summary.t) :=
  cache_data summary_cache set_summary_cache (timer env)
    (connection <- get_databricks_connection env ;;
     match connection with
     | None => ret []
     | Some connection =>
         try_except
           (connection_cursor env connection ;;
            result <- execute_select env (select_summary E) ;;
            data <- cursor_fetchall env result ;;
            cursor_close env ;;
            ret data)
           (fun e =>
              st_error ("Summary fetch failed: " ++ e) ;;
              ret [])
     end).

(** [show_data_entry_form], from the values of its widgets on: the
    [if submitted:] branch.  [st.rerun()] ends the script run; the next run
    starts from the state left here. *)
Definition show_data_entry_form (env : Env) (submitted : bool)
    (business_unit : string) (revenue expenses : Q) (submitted_by : string)
  : M unit :=
  if submitted then
    r <- submit_financial_data env business_unit revenue expenses
           submitted_by ;;
    let (success, result) := r in
    if success then st_cache_data_clear
    else st_error ("Submission failed: " ++ result)
  else ret tt.

(** The [Refresh Data] button of [main]. *)
Definition refresh_data : M unit := st_cache_data_clear.

(* ------------------------------------------------------------------ *)
(** *** Histories *)

(** The calls the application makes. *)
Inductive Call : Type :=
| GetConnection
| Submit (business_unit : string) (revenue expenses : Q)
         (submitted_by : string)
| SubmitForm (business_unit : string) (revenue expenses : Q)
             (submitted_by : string)
| FetchRecent
| FetchSummary
| Refresh.

Definition step (E : Engine) (env : Env) (c : Call) (s : State) : State :=
  match c with
  | GetConnection => snd (get_databricks_connection env s)
  | Submit bu rev exp who => snd (submit_financial_data env bu rev exp who s)
  | SubmitForm bu rev exp who =>
      snd (show_data_entry_form env true bu rev exp who s)
  | FetchRecent => snd (fetch_all_data E env s)
  | FetchSummary => snd (get_summary_stats E env s)
  | Refresh => snd (refresh_data s)
  end.

Fixpoint run (E : Engine) (history : list (Env * Call)) (s : State) : State :=
  match history with
  | [] => s
  | (env, c) :: rest => run E rest (step E env c s)
  end.

(** The states the application can be in, from a table of any contents and
    empty caches. *)
Definition reachable (E : Engine) (s : State) : Prop :=
  exists rows history, s = run E history (initial rows).

(** What holds of the cached frames in every reachable state. *)
Definition caches_ok (s : State) : Prop :=
  (forall stamp df, recent_cache s = Some (stamp, df) ->
     (List.length df <= 100)%nat /\ StronglySorted date_desc df) /\
  (forall stamp out, summary_cache s = Some (stamp, out) ->
     StronglySorted revenue_desc out).

(** The environment of a call in which nothing goes wrong, and the rows
    and form values used in the examples. *)
Definition env_up (now : Z) : Env := {|
  timer := now;
  connect_raises := None;
  cursor_raises := None;
  execute_raises := None;
  fetchall_raises := None;
  close_raises := None;
  urandom := 0xdeadbeef * 2 ^ 96;
  now_submission_date := now;
  now_created_at := now
|}.

Definition sales_row : Submission.t :=
  Submission.mk "sub_00000001" "Sales" 1 100 50 50 "Alice" 1.

Definition hr_row : Submission.t :=
  Submission.mk "sub_00000002" "HR" 2 100 20 80 "Bob" 2.

Definition sales_row' : Submission.t :=
  Submission.mk "sub_00000003" "Sales" 3 300 0 100 "Carol" 3.

Definition cached_state : State :=
  run reference_engine
      [(env_up 0, FetchRecent); (env_up 0, FetchSummary)]
      (initial [sales_row]).

(** The stored margin of a row is the one computed from its own revenue
    and expenses. *)
Definition derived_margin (row : Submission.t) : Prop :=
  Submission.profit_margin row
  = profit_margin (Submission.revenue row) (Submission.expenses row).

(** A connection can be had: a handle is cached, or nothing is cached and
    [sql.connect] succeeds. *)
Definition connection_available (env : Env) (s : State) : Prop :=
  match connection_cache s with
  | Some connection => connection <> None
  | None => connect_raises env = None
  end.

(** No backend call of the INSERT path, respectively of a SELECT path,
    raises. *)
Definition insert_ok (env : Env) : Prop :=
  cursor_raises env = None /\
  execute_raises env = None /\
  close_raises env = None.

Definition select_ok (env : Env) : Prop :=
  cursor_raises env = None /\
  execute_raises env = None /\
  fetchall_raises env = None /\
  close_raises env = None.

(** The cache entry is absent or at least [ttl] old. *)
Definition cache_miss {A : Type} (entry : option (Z * A)) (now : Z) : Prop :=
  match entry with
  | Some (stamp, _) => (stamp + ttl <= now)%Z
  | None => True
  end.

(** Environments in which the query, respectively [sql.connect], raises. *)
Definition env_query_down (now : Z) : Env := {|
  timer := now;
  connect_raises := None;
  cursor_raises := None;
  execute_raises := Some "timeout"%string;
  fetchall_raises := None;
  close_raises := None;
  urandom := 0;
  now_submission_date := now;
  now_created_at := now
|}.

Definition env_connect_down (now : Z) : Env := {|
  timer := now;
  connect_raises := Some "unreachable"%string;
  cursor_raises := None;
  execute_raises := None;
  fetchall_raises := None;
  close_raises := None;
  urandom := 0;
  now_submission_date := now;
  now_created_at := now
|}.

(* ================================================================== *)
(** ** The page: the display functions and [main] *)

(** The four values [show_kpi_metrics] hands to [st.metric], before they
    are formatted: [df['revenue'].sum()], [df['expenses'].sum()],
    [df['profit_margin'].mean()] and [len(df)]. *)
Module Kpi.
Record t : Type := mk {
  total_revenue : Q;
  total_expenses : Q;
  avg_margin : Q;
  submission_count : nat
}.
End Kpi.



(** The columns [show_recent_submissions] displays, in its order:
    [business_unit], [revenue], [expenses], [profit_margin], [submitted_by],
    [submission_date]; the amounts before they are formatted. *)
Module Shown.
Record t : Type := mk {
  business_unit : string;
  revenue : Q;
  expenses : Q;
  profit_margin : Q;
  submitted_by : string;
  submission_date : Z
}.
End Shown.





(** [show_data_entry_form] again, telling whether it has called
    [st.rerun()]. *)
Definition show_data_entry_form_rerun (env : Env) (submitted : bool)
    (business_unit : string) (revenue expenses : Q) (submitted_by : string)
  : M bool :=
  if submitted then
    r <- submit_financial_data env business_unit revenue expenses
           submitted_by ;;
    let (success, result) := r in
    if success then st_cache_data_clear ;; ret true
    else st_error ("Submission failed: " ++ result) ;; ret false
  else ret false.





(** The bits of the random value that reach the submission id: the top 32
    of its 128. *)
Definition id_bits (urandom : N) : N :=
  ((urandom mod 2 ^ 128) / 2 ^ 96)%N.

(** What holds of the connection in every reachable state: [sql.connect]
    has not been called and nothing is cached, or it has been called once
    and its outcome, the handle or [None], is cached. *)
Definition connection_ok (s : State) : Prop :=
  (connection_cache s = None /\ connects s = 0%nat) \/
  (connects s = 1%nat /\
   (connection_cache s = Some None \/
    connection_cache s = Some (Some 1%nat))).

(** A cache entry that holds no row: absent, or an empty frame. *)
Definition empty_entry {A : Type} (entry : option (Z * list A)) : Prop :=
  match entry with
  | Some (_, _ :: _) => False
  | _ => True
  end.

(** As long as no handle is cached, no cached frame holds a row. *)
Definition no_handle_no_data (s : State) : Prop :=
  (forall h, connection_cache s <> Some (Some h)) ->
  empty_entry (recent_cache s) /\ empty_entry (summary_cache s).

(** A state in which the one attempt to connect has failed. *)
Definition disconnected_state : State :=
  run reference_engine
      [(env_connect_down 0, FetchRecent); (env_up 1, Refresh)]
      (initial [sales_row]).


(* ------------------------------------------------------------------ *)

Section HexFacts.

Import Uuid.

Lemma hex_char_lower (d : N) : is_lower_hex (hex_char d) = true.
Proof.
  unfold hex_char.
  assert (H : (d mod 16 < 16)%N) by (apply N.mod_lt; discriminate).
  destruct (d mod 16)%N as [|p]; [reflexivity|].
  do 4 (destruct p as [p|p|]; try reflexivity; try (exfalso; lia)).
Qed.

Lemma hex_digits_length k : forall n acc,
  String.length (hex_digits k n acc) = (k + String.length acc)%nat.
Proof.
  induction k as [|k IH]; intros n acc; simpl; [reflexivity|].
  rewrite IH. simpl. lia.
Qed.

Lemma hex_digits_lower k : forall n acc,
  all_chars is_lower_hex acc = true ->
  all_chars is_lower_hex (hex_digits k n acc) = true.
Proof.
  induction k as [|k IH]; intros n acc Hacc; simpl; [exact Hacc|].
  apply IH. simpl. rewrite hex_char_lower. exact Hacc.
Qed.

Lemma substring_prefix_length : forall m s,
  (m <= String.length s)%nat -> String.length (substring 0 m s) = m.
Proof.
  induction m as [|m IH]; intros [|c s] H; simpl in *;
    try reflexivity; try lia.
  rewrite IH by lia. reflexivity.
Qed.

Lemma substring_prefix_all p : forall m s,
  all_chars p s = true -> all_chars p (substring 0 m s) = true.
Proof.
  induction m as [|m IH]; intros [|c s] H; simpl in *; try reflexivity.
  apply andb_true_iff in H. destruct H as [Hc Hs].
  rewrite Hc. simpl. apply IH, Hs.
Qed.

Lemma lor_lt_pow2 (n a b : N) :
  (a < 2 ^ n -> b < 2 ^ n -> N.lor a b < 2 ^ n)%N.
Proof.
  intros Ha Hb.
  destruct (N.eq_dec (N.lor a b) 0) as [E|E].
  - rewrite E. eapply N.le_lt_trans; [apply N.le_0_l | exact Ha].
  - apply N.log2_lt_pow2; [apply N.neq_0_lt_0, E|].
    rewrite N.log2_lor. apply N.max_lub_lt.
    + destruct (N.eq_dec a 0) as [->|Ha0].
      * rewrite N.lor_0_l in E.
        apply N.log2_lt_pow2 in Hb; [|apply N.neq_0_lt_0, E].
        eapply N.le_lt_trans; [apply N.le_0_l | exact Hb].
      * apply N.log2_lt_pow2; [apply N.neq_0_lt_0, Ha0 | exact Ha].
    + destruct (N.eq_dec b 0) as [->|Hb0].
      * rewrite N.lor_0_r in E.
        apply N.log2_lt_pow2 in Ha; [|apply N.neq_0_lt_0, E].
        eapply N.le_lt_trans; [apply N.le_0_l | exact Ha].
      * apply N.log2_lt_pow2; [apply N.neq_0_lt_0, Hb0 | exact Hb].
Qed.

Lemma ldiff_lt_pow2 (n a b : N) : (a < 2 ^ n -> N.ldiff a b < 2 ^ n)%N.
Proof.
  intro Ha. eapply N.le_lt_trans; [apply N.ldiff_le_l | exact Ha].
Qed.

(** The version and variant bits never push the integer past 128 bits, so
    [%032x] prints exactly 32 digits and [hex] loses nothing. *)
Lemma uuid4_lt (urandom : N) : (uuid4 urandom < 2 ^ 128)%N.
Proof.
  unfold uuid4.
  apply lor_lt_pow2; [|vm_compute; reflexivity].
  apply ldiff_lt_pow2, lor_lt_pow2; [|vm_compute; reflexivity].
  apply ldiff_lt_pow2, N.mod_lt. vm_compute. discriminate.
Qed.

Lemma matches_sub_prefix (s : string) :
  matches_submission_pattern ("sub_" ++ s)
  = ((String.length s =? 8)%nat && all_chars is_lower_hex s).
Proof. reflexivity. Qed.

End HexFacts.

(** C9. Whatever the random bytes, the generated submission id is [sub_]
    followed by exactly eight characters, each of them in [0-9a-f]. *)
Theorem submission_id_matches_pattern (urandom : N) :
  matches_submission_pattern (submission_id urandom) = true.
Proof.
  unfold submission_id. rewrite matches_sub_prefix.
  unfold Uuid.hex.
  rewrite substring_prefix_length
    by (rewrite hex_digits_length; apply Nat.leb_le; reflexivity).
  apply substring_prefix_all, hex_digits_lower. reflexivity.
Qed.


(* ================================================================== *)
(** ** The reference engine conforms *)

Section SortBy.

Context {A : Type} (leb : A -> A -> bool).
Hypothesis leb_total : forall a b, leb a b = true \/ leb b a = true.
Hypothesis leb_trans :
  forall a b c, leb a b = true -> leb b c = true -> leb a c = true.

Let le (a b : A) : Prop := leb a b = true.

Lemma insert_by_perm (x : A) (l : list A) :
  Permutation (x :: l) (insert_by leb x l).
Proof.
  induction l as [|y l IH]; simpl; [reflexivity|].
  destruct (leb x y); [reflexivity|].
  rewrite perm_swap. constructor. exact IH.
Qed.

Lemma sort_by_perm (l : list A) : Permutation l (sort_by leb l).
Proof.
  induction l as [|x l IH]; simpl; [constructor|].
  rewrite <- insert_by_perm. constructor. exact IH.
Qed.

Lemma insert_by_sorted (x : A) (l : list A) :
  StronglySorted le l -> StronglySorted le (insert_by leb x l).
Proof.
  induction 1 as [|y l Hl IH Hy]; simpl.
  - constructor; constructor.
  - destruct (leb x y) eqn:Hxy.
    + constructor; [constructor; assumption|].
      constructor; [exact Hxy|].
      eapply Forall_impl; [|exact Hy].
      intros z Hz. eapply leb_trans; eassumption.
    + constructor; [exact IH|].
      assert (Hyx : le y x)
        by (destruct (leb_total x y); [congruence | assumption]).
      eapply Permutation_Forall; [apply insert_by_perm|].
      constructor; assumption.
Qed.

Lemma sort_by_sorted (l : list A) : StronglySorted le (sort_by leb l).
Proof.
  induction l as [|x l IH]; simpl; [constructor|].
  apply insert_by_sorted, IH.
Qed.

End SortBy.

Lemma StronglySorted_weaken {A : Type} (R R' : A -> A -> Prop) :
  (forall a b, R a b -> R' a b) ->
  forall l, StronglySorted R l -> StronglySorted R' l.
Proof.
  intros HR l. induction 1 as [|x l Hl IH Hx]; constructor.
  - exact IH.
  - eapply Forall_impl; [apply HR | exact Hx].
Qed.

Lemma In_firstn {A : Type} (n : nat) :
  forall (l : list A) (x : A), In x (firstn n l) -> In x l.
Proof.
  induction n as [|n IH]; intros [|y l] x; simpl; try tauto.
  intros [->|H]; [left; reflexivity | right; apply IH, H].
Qed.

Lemma StronglySorted_firstn {A : Type} (R : A -> A -> Prop) (n : nat) :
  forall l, StronglySorted R l -> StronglySorted R (firstn n l).
Proof.
  induction n as [|n IH]; intros l Hl; [constructor|].
  destruct Hl as [|x l Hl Hx]; simpl; [constructor|].
  constructor; [apply IH, Hl|].
  apply Forall_forall. intros y Hy.
  eapply Forall_forall; [exact Hx|].
  eapply In_firstn; exact Hy.
Qed.

Lemma Forall2_refl_on {A : Type} (R : A -> A -> Prop) :
  (forall a, R a a) -> forall l, Forall2 R l l.
Proof.
  intros HR l. induction l; constructor; auto.
Qed.

Lemma summary_equiv_refl (a : Summary.t) : Summary.equiv a a.
Proof.
  unfold Summary.equiv. repeat split; reflexivity.
Qed.

Lemma date_desc_b_sorted (table : list Submission.t) :
  StronglySorted date_desc (sort_by date_desc_b table).
Proof.
  apply StronglySorted_weaken
    with (R := fun a b => date_desc_b a b = true).
  - intros a b H. apply Z.leb_le, H.
  - apply sort_by_sorted; unfold date_desc_b; intros a b.
    + rewrite !Z.leb_le. lia.
    + intro c. rewrite !Z.leb_le. lia.
Qed.

Lemma revenue_desc_b_sorted (groups : list Summary.t) :
  StronglySorted revenue_desc (sort_by revenue_desc_b groups).
Proof.
  apply StronglySorted_weaken
    with (R := fun a b => revenue_desc_b a b = true).
  - intros a b H. apply Qle_bool_iff, H.
  - apply sort_by_sorted; unfold revenue_desc_b; intros a b.
    + rewrite !Qle_bool_iff.
      destruct (Qlt_le_dec (Summary.total_revenue a)
                           (Summary.total_revenue b));
        [right; apply Qlt_le_weak; assumption | left; assumption].
    + intro c. rewrite !Qle_bool_iff. intros H1 H2.
      eapply Qle_trans; eassumption.
Qed.

Lemma reference_engine_conforms : conforms reference_engine.
Proof.
  split; intro table; simpl.
  - exists (sort_by date_desc_b table). repeat split.
    + apply sort_by_perm.
    + apply date_desc_b_sorted.
  - exists (group_by_business_unit table). repeat split.
    + apply Forall2_refl_on, summary_equiv_refl.
    + apply sort_by_perm.
    + apply revenue_desc_b_sorted.
Qed.

(* ================================================================== *)
(** ** Grouping and sums *)





Section GroupSums.

Variable f : Submission.t -> Q.

Let unit_in (units : list string) (r : Submission.t) : bool :=
  if in_dec string_dec (Submission.business_unit r) units then true else false.



Lemma filter_all_units (table : list Submission.t) :
  filter (unit_in (nodup string_dec (map Submission.business_unit table))) table
  = table.
Proof.
  set (units := nodup string_dec (map Submission.business_unit table)).
  assert (H : forall r, In r table -> In (Submission.business_unit r) units)
    by (intros r Hr; apply nodup_In, in_map, Hr).
  clearbody units. unfold unit_in.
  induction table as [|r table IH]; simpl; [reflexivity|].
  destruct (in_dec string_dec (Submission.business_unit r) units) as [Y|N].
  - f_equal. apply IH. intros r' Hr'. apply H. right. exact Hr'.
  - exfalso. apply N, H. left. reflexivity.
Qed.


End GroupSums.






(** The mean of the stored margins is not the margin of the sums: two Sales
    rows with margins 50 and 100 average to 75, while their summed revenue
    400 and expenses 50 would give 87.5. *)
Lemma avg_profit_margin_not_recomputed :
  exists g,
    select_summary reference_engine [sales_row; sales_row'] = [g] /\
    Summary.avg_profit_margin g == 75 /\
    profit_margin (Summary.total_revenue g) (Summary.total_expenses g)
      == 175 # 2.
Proof.
  eexists. split; [reflexivity|]. split; reflexivity.
Qed.

(* ================================================================== *)
(** ** The operations: what they return and what they change *)

Ltac unfold_ops :=
  unfold show_data_entry_form, refresh_data, st_cache_data_clear,
    submit_financial_data, fetch_all_data, get_summary_stats,
    get_databricks_connection, cache_data, cache_resource, try_except,
    sql_connect, connection_cursor, execute_insert, execute_select,
    cursor_fetchall, cursor_close, st_error, may_raise,
    bind, ret, raise, modify, gets.

Ltac case_faults env :=
  destruct (cursor_raises env) eqn:?;
  destruct (execute_raises env) eqn:?;
  destruct (fetchall_raises env) eqn:?;
  destruct (close_raises env) eqn:?.

Ltac case_connection env s :=
  destruct (connection_cache s) as [[?|]|] eqn:?;
  [ | | destruct (connect_raises env) eqn:? ].

Lemma profit_margin_positive (revenue expenses : Q) :
  0 < revenue ->
  profit_margin revenue expenses = (revenue - expenses) / revenue * 100.
Proof.
  intro H. unfold profit_margin.
  destruct (Qlt_le_dec 0 revenue) as [_|N]; [reflexivity|].
  exfalso. exact (Qlt_not_le _ _ H N).
Qed.

Lemma profit_margin_zero (revenue expenses : Q) :
  revenue == 0 -> profit_margin revenue expenses = 0.
Proof.
  intro H. unfold profit_margin.
  destruct (Qlt_le_dec 0 revenue) as [P|_]; [|reflexivity].
  exfalso. rewrite H in P. exact (Qlt_irrefl _ P).
Qed.

(** C10. [submit_financial_data] returns a pair on every input, in every
    state and whatever the backend does; on success the second component is
    the generated submission id, the id of the row it has written; on
    failure it is the text ["Connection failed"] or the message of the
    exception a backend call raised.  Both are strings. *)
Theorem submit_returns_pair_never_raises
    (env : Env) (business_unit : string) (revenue expenses : Q)
    (submitted_by : string) (s : State) :
  exists (success : bool) (payload : string) (s' : State),
    submit_financial_data env business_unit revenue expenses submitted_by s
      = (Return (success, payload), s') /\
    if success
    then payload = submission_id (urandom env) /\
         exists row, table s' = (table s ++ [row])%list /\
                     Submission.submission_id row = payload
    else payload = "Connection failed"%string \/
         cursor_raises env = Some payload \/
         execute_raises env = Some payload \/
         close_raises env = Some payload.
Proof.
  unfold_ops. case_connection env s; case_faults env; simpl;
    do 3 eexists; (split; [reflexivity|]); simpl;
    solve [ auto | split; [reflexivity|]; eexists; split; reflexivity ].
Qed.

(** Every call leaves the table alone or appends one row, whose margin is
    computed from the revenue and expenses passed to the call. *)
Lemma step_table (E : Engine) (env : Env) (c : Call) (s : State) :
  table (step E env c s) = table s \/
  exists row,
    table (step E env c s) = (table s ++ [row])%list /\ derived_margin row.
Proof.
  destruct c; unfold step; unfold_ops;
    case_connection env s; case_faults env; simpl;
    repeat match goal with
           | |- context [match ?x with Some _ => _ | None => _ end] =>
               destruct x as [[? ?]|]
           | |- context [if ?b then _ else _] => destruct b
           end; simpl;
    solve [ left; reflexivity
          | right; eexists; split; [reflexivity|]; reflexivity ].
Qed.

Lemma run_derived (E : Engine) (history : list (Env * Call)) :
  forall s, Forall derived_margin (table s) ->
            Forall derived_margin (table (run E history s)).
Proof.
  induction history as [|[env c] history IH]; intros s Hs; simpl;
    [exact Hs|].
  apply IH. destruct (step_table E env c s) as [->|(row & -> & Hrow)];
    [exact Hs|].
  apply Forall_app. split; [exact Hs|]. constructor; [exact Hrow|constructor].
Qed.

(** C1. Whatever calls have been made since the table was empty, every row
    in it has the derived margin: [(revenue - expenses) / revenue * 100]
    when its revenue is positive, and 0 when its revenue is 0.  The margin
    is computed by [submit_financial_data] from the two amounts it is given;
    it has no parameter for it. *)
Theorem stored_profit_margin_is_derived
    (E : Engine) (history : list (Env * Call)) (row : Submission.t) :
  In row (table (run E history (initial []))) ->
  (0 < Submission.revenue row ->
   Submission.profit_margin row
   == (Submission.revenue row - Submission.expenses row)
      / Submission.revenue row * 100) /\
  (Submission.revenue row == 0 -> Submission.profit_margin row == 0).
Proof.
  intro Hin.
  assert (H : derived_margin row).
  { eapply Forall_forall; [|exact Hin].
    apply run_derived. constructor. }
  unfold derived_margin in H. rewrite H. split; intro Hr.
  - rewrite profit_margin_positive by exact Hr. reflexivity.
  - rewrite profit_margin_zero by exact Hr. reflexivity.
Qed.

Lemma stored_profit_margin_is_derived_witness :
  let row := Submission.mk "sub_deadbeef" "Sales" 7 100000 75000
                    (profit_margin 100000 75000) "Alice" 7 in
  In row (table (run reference_engine
                     [(env_up 7, Submit "Sales" 100000 75000 "Alice")]
                     (initial []))) /\
  (0 < Submission.revenue row ->
   Submission.profit_margin row
   == (Submission.revenue row - Submission.expenses row)
      / Submission.revenue row * 100) /\
  (Submission.revenue row == 0 -> Submission.profit_margin row == 0).
Proof.
  intro row.
  assert (Hin : In row (table (run reference_engine
                     [(env_up 7, Submit "Sales" 100000 75000 "Alice")]
                     (initial [])))) by (left; reflexivity).
  split; [exact Hin|].
  exact (stored_profit_margin_is_derived reference_engine _ row Hin).
Defined.

(** C2, as the code has it.  [submit_financial_data] does not look at the
    values it is given: it succeeds exactly when a connection can be had and
    no backend call raises.  On success the row is written and the form
    clears both cache entries; on failure the form leaves both cache entries
    as they were, and the table is unchanged unless the exception came from
    [cursor.close()], after the insert. *)
Theorem submit_fails_only_on_backend_failure
    (env : Env) (business_unit : string) (revenue expenses : Q)
    (submitted_by : string) (s : State) :
  exists (success : bool) (payload : string) (s1 s2 : State),
    submit_financial_data env business_unit revenue expenses submitted_by s
      = (Return (success, payload), s1) /\
    show_data_entry_form env true business_unit revenue expenses
                         submitted_by s
      = (Return tt, s2) /\
    (success = true <-> connection_available env s /\ insert_ok env) /\
    table s2 = table s1 /\
    if success
    then table s1
         = (table s ++
            [Submission.mk (submission_id (urandom env)) business_unit
                    (now_submission_date env) revenue expenses
                    (profit_margin revenue expenses)
                    submitted_by (now_created_at env)])%list /\
         recent_cache s2 = None /\ summary_cache s2 = None
    else recent_cache s2 = recent_cache s /\
         summary_cache s2 = summary_cache s /\
         (table s1 = table s \/ close_raises env = Some payload).
Proof.
  unfold connection_available, insert_ok. unfold_ops.
  case_connection env s; case_faults env; simpl;
    do 4 eexists; (split; [reflexivity|]); (split; [reflexivity|]); simpl;
    (split; [split; [intro H; try discriminate H; repeat split; congruence
                    | intros (H1 & H2 & H3 & H4); congruence] |]);
    (split; [reflexivity|]); auto.
Qed.

(** C2, as the spec has it, fails: with revenue -10, a value the form
    cannot produce, a live connection and a healthy backend, the row is
    written, the call reports success, and the form clears both cache
    entries, which were filled before. *)
Lemma negative_revenue_is_written :
  ~ form_can_produce "Sales" (-10) 5 /\
  recent_cache cached_state <> None /\
  summary_cache cached_state <> None /\
  exists (s1 s2 : State) (row : Submission.t),
    submit_financial_data (env_up 1) "Sales" (-10) 5 "Demo User" cached_state
      = (Return (true, "sub_deadbeef"%string), s1) /\
    table s1 = [sales_row; row] /\
    Submission.revenue row = -10 /\
    show_data_entry_form (env_up 1) true "Sales" (-10) 5 "Demo User"
                         cached_state
      = (Return tt, s2) /\
    recent_cache s2 = None /\ summary_cache s2 = None.
Proof.
  split; [|split; [|split]].
  - intros (_ & H & _). apply (Qle_not_lt _ _ H). reflexivity.
  - discriminate.
  - discriminate.
  - do 3 eexists. repeat split.
Qed.

(* ================================================================== *)
(** ** Reads after a write *)

(** With a cached handle, an empty cache entry and a backend that answers,
    the fetch is the query on the table as it is now. *)
Lemma fetch_all_data_fresh (E : Engine) (env : Env) (s : State) (h : Handle) :
  connection_cache s = Some (Some h) ->
  recent_cache s = None ->
  select_ok env ->
  fetch_all_data E env s
  = (Return (select_recent E (table s)),
     set_recent_cache (Some (timer env, select_recent E (table s)))
                      (count_statement s)).
Proof.
  intros Hc Hr (H1 & H2 & H3 & H4). unfold_ops.
  rewrite Hc, Hr, H1, H2, H3, H4. reflexivity.
Qed.

Lemma get_summary_stats_fresh (E : Engine) (env : Env) (s : State)
    (h : Handle) :
  connection_cache s = Some (Some h) ->
  summary_cache s = None ->
  select_ok env ->
  get_summary_stats E env s
  = (Return (select_summary E (table s)),
     set_summary_cache (Some (timer env, select_summary E (table s)))
                       (count_statement s)).
Proof.
  intros Hc Hr (H1 & H2 & H3 & H4). unfold_ops.
  rewrite Hc, Hr, H1, H2, H3, H4. reflexivity.
Qed.

(** What a successful submission leaves behind. *)
Lemma submit_success (env : Env) (business_unit : string)
    (revenue expenses : Q) (submitted_by : string) (s s1 : State)
    (id : string) :
  submit_financial_data env business_unit revenue expenses submitted_by s
    = (Return (true, id), s1) ->
  (exists h, connection_cache s1 = Some (Some h)) /\
  (exists row, table s1 = (table s ++ [row])%list /\
               Submission.submission_id row = id) /\
  statements s1 = S (statements s).
Proof.
  unfold_ops. case_connection env s; case_faults env; simpl; intro H;
    try discriminate H; injection H as <- <-; simpl;
    (split; [eexists; (eassumption || reflexivity)|]);
    (split; [eexists; split; reflexivity | reflexivity]).
Qed.

Lemma form_after_success (env : Env) (business_unit : string)
    (revenue expenses : Q) (submitted_by : string) (s s1 : State)
    (id : string) :
  submit_financial_data env business_unit revenue expenses submitted_by s
    = (Return (true, id), s1) ->
  show_data_entry_form env true business_unit revenue expenses submitted_by s
  = (Return tt, set_summary_cache None (set_recent_cache None s1)).
Proof.
  intro H. unfold show_data_entry_form, bind. rewrite H. reflexivity.
Qed.


(** C3. When [submit_financial_data] has succeeded, the form leaves both
    cache entries empty, with the new row in the table and the INSERT as the
    only statement executed; the next [fetch_all_data] and the next
    [get_summary_stats] therefore run their queries on the table with the
    new row in it (here: with a backend that answers). *)
Theorem successful_submit_invalidates_both_caches
    (E : Engine) (env : Env) (business_unit : string) (revenue expenses : Q)
    (submitted_by : string) (s s1 : State) (id : string) :
  submit_financial_data env business_unit revenue expenses submitted_by s
    = (Return (true, id), s1) ->
  exists (s2 : State) (row : Submission.t),
    show_data_entry_form env true business_unit revenue expenses
                         submitted_by s
      = (Return tt, s2) /\
    table s2 = (table s ++ [row])%list /\
    Submission.submission_id row = id /\
    recent_cache s2 = None /\
    summary_cache s2 = None /\
    statements s2 = S (statements s) /\
    forall env', select_ok env' ->
      (exists s3,
         fetch_all_data E env' s2
           = (Return (select_recent E (table s ++ [row])), s3) /\
         statements s3 = S (statements s2) /\
         recent_cache s3
           = Some (timer env', select_recent E (table s ++ [row]))) /\
      (exists s3,
         get_summary_stats E env' s2
           = (Return (select_summary E (table s ++ [row])), s3) /\
         statements s3 = S (statements s2) /\
         summary_cache s3
           = Some (timer env', select_summary E (table s ++ [row]))).
Proof.
  intro H.
  destruct (submit_success _ _ _ _ _ _ _ _ H)
    as ((h & Hh) & (row & Ht & Hid) & Hn).
  exists (set_summary_cache None (set_recent_cache None s1)), row.
  split; [apply form_after_success with (id := id), H|].
  repeat (split; [assumption || reflexivity|]).
  intros env' Hok. rewrite <- Ht. split; eexists.
  - rewrite (fetch_all_data_fresh E env' _ h) by (assumption || reflexivity).
    repeat split.
  - rewrite (get_summary_stats_fresh E env' _ h)
      by (assumption || reflexivity).
    repeat split.
Qed.

Lemma successful_submit_invalidates_both_caches_witness :
  exists s1,
    submit_financial_data (env_up 1) "Sales" 100000 75000 "Alice"
                          cached_state
      = (Return (true, "sub_deadbeef"%string), s1) /\
    exists (s2 : State) (row : Submission.t),
      show_data_entry_form (env_up 1) true "Sales" 100000 75000 "Alice"
                           cached_state
        = (Return tt, s2) /\
      table s2 = (table cached_state ++ [row])%list /\
      Submission.submission_id row = "sub_deadbeef"%string /\
      recent_cache s2 = None /\
      summary_cache s2 = None /\
      statements s2 = S (statements cached_state) /\
      forall env', select_ok env' ->
        (exists s3,
           fetch_all_data reference_engine env' s2
             = (Return (select_recent reference_engine
                          (table cached_state ++ [row])), s3) /\
           statements s3 = S (statements s2) /\
           recent_cache s3
             = Some (timer env',
                     select_recent reference_engine
                       (table cached_state ++ [row]))) /\
        (exists s3,
           get_summary_stats reference_engine env' s2
             = (Return (select_summary reference_engine
                          (table cached_state ++ [row])), s3) /\
           statements s3 = S (statements s2) /\
           summary_cache s3
             = Some (timer env',
                     select_summary reference_engine
                       (table cached_state ++ [row]))).
Proof.
  eexists. split; [reflexivity|].
  exact (successful_submit_invalidates_both_caches
           reference_engine (env_up 1) "Sales" 100000 75000 "Alice"
           cached_state _ _ eq_refl).
Defined.

(* ================================================================== *)
(** ** The cached frames *)

Lemma conforms_recent (E : Engine) (HE : conforms E)
    (rows : list Submission.t) :
  (List.length (select_recent E rows) <= 100)%nat /\
  StronglySorted date_desc (select_recent E rows).
Proof.
  destruct (recent_conforms E HE rows) as (ordered & _ & Hsorted & ->).
  split; [apply firstn_le_length | apply StronglySorted_firstn, Hsorted].
Qed.

Lemma conforms_summary (E : Engine) (HE : conforms E)
    (rows : list Submission.t) :
  StronglySorted revenue_desc (select_summary E rows).
Proof.
  destruct (summary_conforms E HE rows) as (groups & _ & _ & H). exact H.
Qed.

(** [fetch_all_data] always returns a frame: the cached one, leaving the
    state as it is, or a new one that it caches, empty or the answer to the
    query. *)
Lemma fetch_all_data_cases (E : Engine) (env : Env) (s : State) :
  exists df s',
    fetch_all_data E env s = (Return df, s') /\
    summary_cache s' = summary_cache s /\
    ((s' = s /\ exists stamp, recent_cache s = Some (stamp, df)) \/
     (recent_cache s' = Some (timer env, df) /\
      (df = [] \/ df = select_recent E (table s)))).
Proof.
  unfold_ops.
  destruct (recent_cache s) as [[stamp df]|] eqn:Hr;
    [destruct (timer env <? stamp + ttl)%Z;
       [do 2 eexists; split; [reflexivity|]; split; [reflexivity|];
        left; split; [reflexivity | eexists; reflexivity] |] |];
    case_connection env s; case_faults env; simpl;
    do 2 eexists; (split; [reflexivity|]); (split; [reflexivity|]);
    right; (split; [reflexivity|]); auto.
Qed.

Lemma get_summary_stats_cases (E : Engine) (env : Env) (s : State) :
  exists out s',
    get_summary_stats E env s = (Return out, s') /\
    recent_cache s' = recent_cache s /\
    ((s' = s /\ exists stamp, summary_cache s = Some (stamp, out)) \/
     (summary_cache s' = Some (timer env, out) /\
      (out = [] \/ out = select_summary E (table s)))).
Proof.
  unfold_ops.
  destruct (summary_cache s) as [[stamp out]|] eqn:Hr;
    [destruct (timer env <? stamp + ttl)%Z;
       [do 2 eexists; split; [reflexivity|]; split; [reflexivity|];
        left; split; [reflexivity | eexists; reflexivity] |] |];
    case_connection env s; case_faults env; simpl;
    do 2 eexists; (split; [reflexivity|]); (split; [reflexivity|]);
    right; (split; [reflexivity|]); auto.
Qed.

(** The other calls leave both cache entries as they are or empty them. *)
Lemma other_calls_caches (E : Engine) (env : Env) (c : Call) (s : State) :
  c <> FetchRecent -> c <> FetchSummary ->
  (recent_cache (step E env c s) = recent_cache s \/
   recent_cache (step E env c s) = None) /\
  (summary_cache (step E env c s) = summary_cache s \/
   summary_cache (step E env c s) = None).
Proof.
  intros H1 H2. destruct c; try congruence; unfold step; unfold_ops;
    case_connection env s; case_faults env; simpl; auto.
Qed.

Lemma step_caches_ok (E : Engine) (HE : conforms E) (env : Env) (c : Call)
    (s : State) :
  caches_ok s -> caches_ok (step E env c s).
Proof.
  intros [Hrec Hsum].
  assert (Hother : c <> FetchRecent -> c <> FetchSummary ->
                   caches_ok (step E env c s)).
  { intros H1 H2.
    destruct (other_calls_caches E env c s H1 H2) as [[R|R] [S|S]];
      split; rewrite ?R, ?S; try discriminate; assumption. }
  destruct c; try (apply Hother; discriminate); unfold step.
  - destruct (fetch_all_data_cases E env s)
      as (df & s' & -> & Hs & [[-> _]|[Hr Hdf]]); simpl;
      [split; assumption|].
    split; [|rewrite Hs; exact Hsum].
    intros stamp df'. rewrite Hr. intro H. injection H as _ <-.
    destruct Hdf as [->| ->];
      [split; [simpl; lia | constructor] | apply conforms_recent, HE].
  - destruct (get_summary_stats_cases E env s)
      as (out & s' & -> & Hs & [[-> _]|[Hr Hout]]); simpl;
      [split; assumption|].
    split; [rewrite Hs; exact Hrec|].
    intros stamp out'. rewrite Hr. intro H. injection H as _ <-.
    destruct Hout as [->| ->];
      [constructor | apply conforms_summary, HE].
Qed.

Lemma reachable_caches_ok (E : Engine) (HE : conforms E) (s : State) :
  reachable E s -> caches_ok s.
Proof.
  intros (rows & history & ->).
  assert (H : caches_ok (initial rows)) by (split; discriminate).
  revert H. generalize (initial rows).
  induction history as [|[env c] history IH]; intros s H; simpl;
    [exact H|].
  apply IH, step_caches_ok; assumption.
Qed.

(** C6. In every reachable state, over a table of any contents,
    [fetch_all_data] returns a frame of at most 100 rows in descending order
    of [submission_date]. *)
Theorem fetch_all_data_at_most_100_sorted
    (E : Engine) (HE : conforms E) (s : State) (Hs : reachable E s)
    (env : Env) :
  exists df s',
    fetch_all_data E env s = (Return df, s') /\
    (List.length df <= 100)%nat /\
    StronglySorted date_desc df.
Proof.
  destruct (reachable_caches_ok E HE s Hs) as [Hrec _].
  destruct (fetch_all_data_cases E env s)
    as (df & s' & Hf & _ & [[_ [stamp Hr]]|[_ Hdf]]);
    exists df, s'; (split; [exact Hf|]).
  - apply (Hrec stamp), Hr.
  - destruct Hdf as [->| ->];
      [split; [simpl; lia | constructor] | apply conforms_recent, HE].
Qed.

Lemma cached_state_reachable : reachable reference_engine cached_state.
Proof.
  exists [sales_row],
         [(env_up 0, FetchRecent); (env_up 0, FetchSummary)].
  reflexivity.
Qed.

Lemma fetch_all_data_at_most_100_sorted_witness :
  conforms reference_engine /\
  reachable reference_engine cached_state /\
  exists df s',
    fetch_all_data reference_engine (env_up 1) cached_state
      = (Return df, s') /\
    (List.length df <= 100)%nat /\
    StronglySorted date_desc df.
Proof.
  split; [exact reference_engine_conforms|].
  split; [exact cached_state_reachable|].
  exact (fetch_all_data_at_most_100_sorted
           reference_engine reference_engine_conforms
           cached_state cached_state_reachable (env_up 1)).
Defined.

(** C7, as the code has it.  In every reachable state, over a table of any
    contents, [get_summary_stats] returns its rows in descending order of
    [total_revenue]. *)
Theorem get_summary_stats_sorted_by_total_revenue
    (E : Engine) (HE : conforms E) (s : State) (Hs : reachable E s)
    (env : Env) :
  exists out s',
    get_summary_stats E env s = (Return out, s') /\
    StronglySorted revenue_desc out.
Proof.
  destruct (reachable_caches_ok E HE s Hs) as [_ Hsum].
  destruct (get_summary_stats_cases E env s)
    as (out & s' & Hf & _ & [[_ [stamp Hr]]|[_ Hout]]);
    exists out, s'; (split; [exact Hf|]).
  - apply (Hsum stamp), Hr.
  - destruct Hout as [->| ->];
      [constructor | apply conforms_summary, HE].
Qed.

Lemma get_summary_stats_sorted_by_total_revenue_witness :
  conforms reference_engine /\
  reachable reference_engine cached_state /\
  exists out s',
    get_summary_stats reference_engine (env_up 1) cached_state
      = (Return out, s') /\
    StronglySorted revenue_desc out.
Proof.
  split; [exact reference_engine_conforms|].
  split; [exact cached_state_reachable|].
  exact (get_summary_stats_sorted_by_total_revenue
           reference_engine reference_engine_conforms
           cached_state cached_state_reachable (env_up 1)).
Defined.

(** C7, as the spec has it, fails: the statement orders by [total_revenue]
    alone.  Sales and HR both total 100; a conforming engine answers Sales
    before HR, and [get_summary_stats] returns the rows in that order, which
    is not ascending in [business_unit]. *)
Lemma summary_ties_not_ordered_by_unit :
  conforms reference_engine /\
  exists sales hr s',
    get_summary_stats reference_engine (env_up 0)
                      (initial [sales_row; hr_row])
      = (Return [sales; hr], s') /\
    Summary.business_unit sales = "Sales"%string /\
    Summary.business_unit hr = "HR"%string /\
    Summary.total_revenue sales == Summary.total_revenue hr /\
    ~ StronglySorted revenue_desc_unit_asc [sales; hr].
Proof.
  split; [exact reference_engine_conforms|].
  do 3 eexists. split; [reflexivity|].
  split; [reflexivity|]. split; [reflexivity|]. split; [reflexivity|].
  intro H. inversion H as [|? ? _ Hall]; subst.
  inversion Hall as [|? ? [Hlt|[_ Hleb]] _]; subst.
  - revert Hlt. apply Qlt_irrefl.
  - discriminate Hleb.
Qed.

(* ================================================================== *)
(** ** Failures and the caches *)

Lemma fetch_all_data_hit (E : Engine) (env : Env) (s : State)
    (stamp : Z) (df : list Submission.t) :
  recent_cache s = Some (stamp, df) ->
  (timer env < stamp + ttl)%Z ->
  fetch_all_data E env s = (Return df, s).
Proof.
  intros Hr Ht. unfold fetch_all_data, cache_data. rewrite Hr.
  apply Z.ltb_lt in Ht. rewrite Ht. reflexivity.
Qed.

Lemma get_summary_stats_hit (E : Engine) (env : Env) (s : State)
    (stamp : Z) (out : list Summary.t) :
  summary_cache s = Some (stamp, out) ->
  (timer env < stamp + ttl)%Z ->
  get_summary_stats E env s = (Return out, s).
Proof.
  intros Hr Ht. unfold get_summary_stats, cache_data. rewrite Hr.
  apply Z.ltb_lt in Ht. rewrite Ht. reflexivity.
Qed.

Lemma fetch_all_data_failure (E : Engine) (env : Env) (s : State) :
  ~ (connection_available env s /\ select_ok env) ->
  cache_miss (recent_cache s) (timer env) ->
  exists s1,
    fetch_all_data E env s = (Return [], s1) /\
    recent_cache s1 = Some (timer env, []).
Proof.
  unfold connection_available, select_ok, cache_miss. intros Hfail Hmiss.
  unfold_ops.
  destruct (recent_cache s) as [[stamp df]|];
    [destruct (Z.ltb_spec (timer env) (stamp + ttl)); [lia|] |];
    case_connection env s; case_faults env; simpl;
    try (eexists; split; reflexivity);
    exfalso; apply Hfail; repeat split; congruence.
Qed.

Lemma get_summary_stats_failure (E : Engine) (env : Env) (s : State) :
  ~ (connection_available env s /\ select_ok env) ->
  cache_miss (summary_cache s) (timer env) ->
  exists s1,
    get_summary_stats E env s = (Return [], s1) /\
    summary_cache s1 = Some (timer env, []).
Proof.
  unfold connection_available, select_ok, cache_miss. intros Hfail Hmiss.
  unfold_ops.
  destruct (summary_cache s) as [[stamp df]|];
    [destruct (Z.ltb_spec (timer env) (stamp + ttl)); [lia|] |];
    case_connection env s; case_faults env; simpl;
    try (eexists; split; reflexivity);
    exfalso; apply Hfail; repeat split; congruence.
Qed.

(** C4, as the code has it.  A fetch that fails (no connection to be had,
    or a backend call raising) on a cache miss returns an empty frame, not
    an error, and that frame is cached with the time of the call: every call
    before the entry is [ttl] old returns the empty frame again and leaves
    the state, the traffic counters included, as it is.  This holds of
    [fetch_all_data] and of [get_summary_stats]. *)
Theorem failed_fetch_is_cached (E : Engine) (env : Env) (s : State) :
  ~ (connection_available env s /\ select_ok env) ->
  (cache_miss (recent_cache s) (timer env) ->
   exists s1,
     fetch_all_data E env s = (Return [], s1) /\
     recent_cache s1 = Some (timer env, []) /\
     forall env', (timer env' < timer env + ttl)%Z ->
                  fetch_all_data E env' s1 = (Return [], s1)) /\
  (cache_miss (summary_cache s) (timer env) ->
   exists s1,
     get_summary_stats E env s = (Return [], s1) /\
     summary_cache s1 = Some (timer env, []) /\
     forall env', (timer env' < timer env + ttl)%Z ->
                  get_summary_stats E env' s1 = (Return [], s1)).
Proof.
  intro Hfail. split; intro Hmiss.
  - destruct (fetch_all_data_failure E env s Hfail Hmiss) as (s1 & H1 & H2).
    exists s1. repeat split; try assumption.
    intros env' Ht. eapply fetch_all_data_hit; eassumption.
  - destruct (get_summary_stats_failure E env s Hfail Hmiss)
      as (s1 & H1 & H2).
    exists s1. repeat split; try assumption.
    intros env' Ht. eapply get_summary_stats_hit; eassumption.
Qed.

Lemma query_down_fails (rows : list Submission.t) :
  ~ (connection_available (env_query_down 0) (initial rows) /\
     select_ok (env_query_down 0)).
Proof.
  intros (_ & _ & H & _). discriminate H.
Qed.

Lemma failed_fetch_is_cached_witness :
  ~ (connection_available (env_query_down 0) (initial [sales_row]) /\
     select_ok (env_query_down 0)) /\
  (cache_miss (recent_cache (initial [sales_row]))
              (timer (env_query_down 0)) ->
   exists s1,
     fetch_all_data reference_engine (env_query_down 0)
                    (initial [sales_row])
       = (Return [], s1) /\
     recent_cache s1 = Some (timer (env_query_down 0), []) /\
     forall env', (timer env' < timer (env_query_down 0) + ttl)%Z ->
                  fetch_all_data reference_engine env' s1
                  = (Return [], s1)) /\
  (cache_miss (summary_cache (initial [sales_row]))
              (timer (env_query_down 0)) ->
   exists s1,
     get_summary_stats reference_engine (env_query_down 0)
                       (initial [sales_row])
       = (Return [], s1) /\
     summary_cache s1 = Some (timer (env_query_down 0), []) /\
     forall env', (timer env' < timer (env_query_down 0) + ttl)%Z ->
                  get_summary_stats reference_engine env' s1
                  = (Return [], s1)).
Proof.
  split; [exact (query_down_fails [sales_row])|].
  exact (failed_fetch_is_cached reference_engine (env_query_down 0)
           (initial [sales_row]) (query_down_fails [sales_row])).
Defined.

(** C4, as the spec has it, fails: the query raises at time 0 over a table
    that holds a row; [fetch_all_data] returns an empty frame and caches it.
    One microsecond later, with a backend that answers, the call returns
    the cached empty frame and executes nothing: the state, with its one
    executed statement, is unchanged. *)
Lemma failed_fetch_is_served_from_cache :
  exists s1,
    fetch_all_data reference_engine (env_query_down 0) (initial [sales_row])
      = (Return [], s1) /\
    errors s1 = ["Fetch failed: timeout"%string] /\
    recent_cache s1 = Some (0%Z, []) /\
    statements s1 = 1%nat /\
    table s1 = [sales_row] /\
    select_ok (env_up 1) /\
    (timer (env_up 1) < 0 + ttl)%Z /\
    fetch_all_data reference_engine (env_up 1) s1 = (Return [], s1).
Proof.
  eexists. repeat split.
Qed.

(** Once [None] is the cached connection, no call replaces it and no call
    reaches [sql.connect]. *)
Lemma step_without_connection (E : Engine) (env : Env) (c : Call)
    (s : State) :
  connection_cache s = Some None ->
  connection_cache (step E env c s) = Some None /\
  connects (step E env c s) = connects s.
Proof.
  intro H. destruct c; unfold step; unfold_ops;
    repeat progress (simpl; rewrite ?H);
    repeat match goal with
           | |- context [match ?x with Some _ => _ | None => _ end] =>
               destruct x as [[? ?]|]
           | |- context [if ?b then _ else _] => destruct b
           end; simpl; auto.
Qed.

Lemma run_without_connection (E : Engine) (history : list (Env * Call)) :
  forall s,
    connection_cache s = Some None ->
    connection_cache (run E history s) = Some None /\
    connects (run E history s) = connects s.
Proof.
  induction history as [|[env c] history IH]; intros s H; simpl;
    [split; [exact H | reflexivity]|].
  destruct (step_without_connection E env c s H) as [H1 H2].
  destruct (IH _ H1) as [H3 H4]. split; [exact H3 | congruence].
Qed.

(** C5, as the code has it.  When [sql.connect] raises,
    [get_databricks_connection] displays the message and returns [None];
    the decorator caches that [None].  From then on, whatever calls are
    made, [None] stays cached, [get_databricks_connection] returns it
    without changing the state, and [sql.connect] is not called again. *)
Theorem failed_connection_is_cached (env : Env) (s : State) (e : string) :
  connection_cache s = None ->
  connect_raises env = Some e ->
  exists s1,
    get_databricks_connection env s = (Return None, s1) /\
    connection_cache s1 = Some None /\
    connects s1 = S (connects s) /\
    errors s1 = (errors s ++ [("Connection failed: " ++ e)%string])%list /\
    forall (E : Engine) (history : list (Env * Call)) (env' : Env),
      connection_cache (run E history s1) = Some None /\
      connects (run E history s1) = connects s1 /\
      get_databricks_connection env' (run E history s1)
      = (Return None, run E history s1).
Proof.
  intros Hc He. unfold_ops. rewrite Hc, He. simpl.
  eexists. split; [reflexivity|]. repeat (split; [reflexivity|]).
  intros E history env'.
  match goal with
  | |- connection_cache (run E history ?s1) = _ /\ _ =>
      destruct (run_without_connection E history s1 eq_refl) as [H1 H2]
  end.
  split; [exact H1|]. split; [exact H2|].
  rewrite H1. reflexivity.
Qed.

Lemma failed_connection_is_cached_witness :
  connection_cache (initial []) = None /\
  connect_raises (env_connect_down 0) = Some "unreachable"%string /\
  exists s1,
    get_databricks_connection (env_connect_down 0) (initial [])
      = (Return None, s1) /\
    connection_cache s1 = Some None /\
    connects s1 = S (connects (initial [])) /\
    errors s1
      = (errors (initial []) ++
         [("Connection failed: " ++ "unreachable")%string])%list
      /\
    forall (E : Engine) (history : list (Env * Call)) (env' : Env),
      connection_cache (run E history s1) = Some None /\
      connects (run E history s1) = connects s1 /\
      get_databricks_connection env' (run E history s1)
      = (Return None, run E history s1).
Proof.
  split; [reflexivity|]. split; [reflexivity|].
  exact (failed_connection_is_cached (env_connect_down 0) (initial [])
           "unreachable" eq_refl eq_refl).
Defined.

(** C5, as the spec has it, fails: [sql.connect] raises on the first call;
    [get_databricks_connection] returns [None] and caches it.  On the next
    call, with a backend that would accept the connection, it returns the
    cached [None] and the state is unchanged: [sql.connect] has still been
    called once. *)
Lemma failed_connection_is_served_from_cache :
  exists s1,
    get_databricks_connection (env_connect_down 0) (initial [])
      = (Return None, s1) /\
    connection_cache s1 = Some None /\
    connects s1 = 1%nat /\
    connect_raises (env_up 1) = None /\
    get_databricks_connection (env_up 1) s1 = (Return None, s1).
Proof.
  eexists. repeat split.
Qed.

(* ================================================================== *)
(** ** Further properties of the operations *)

(** X1.  The table is append-only: whatever calls are made, the rows that were
    in the table are still there, unchanged and in place, in front of the
    rows written since. *)
Theorem table_is_append_only
    (E : Engine) (history : list (Env * Call)) (s : State) :
  exists written,
    table (run E history s) = (table s ++ written)%list /\
    Forall derived_margin written.
Proof.
  revert s. induction history as [|[env c] history IH]; intro s; simpl.
  - exists []. split; [symmetry; apply app_nil_r | constructor].
  - destruct (IH (step E env c s)) as (written & -> & Hw).
    destruct (step_table E env c s) as [->|(row & -> & Hrow)].
    + exists written. split; [reflexivity | exact Hw].
    + exists (row :: written). split.
      * rewrite <- app_assoc. reflexivity.
      * constructor; assumption.
Qed.

Lemma step_connection_ok (E : Engine) (env : Env) (c : Call) (s : State) :
  connection_ok s -> connection_ok (step E env c s).
Proof.
  unfold connection_ok.
  intros [[Hc Hn]|[Hn [Hc|Hc]]]; destruct c; unfold step; unfold_ops;
    rewrite ?Hc; simpl;
    repeat match goal with
           | |- context [match ?x with Some _ => _ | None => _ end] =>
               destruct x as [?|] eqn:?
           | |- context [let (_, _) := ?x in _] => destruct x
           | |- context [if ?b then _ else _] => destruct b
           end; simpl; rewrite ?Hc, ?Hn; simpl; auto.
Qed.

Lemma reachable_connection_ok (E : Engine) (s : State) :
  reachable E s -> connection_ok s.
Proof.
  intros (rows & history & ->).
  assert (H : connection_ok (initial rows)) by (left; split; reflexivity).
  revert H. generalize (initial rows).
  induction history as [|[env c] history IH]; intros s H; simpl;
    [exact H|].
  apply IH, step_connection_ok, H.
Qed.

(** X2.  In every reachable state [sql.connect] has been called at most once,
    it has been called exactly when something is cached for the
    connection, and every handle [get_databricks_connection] returns is the
    one that single call made. *)
Theorem connection_is_established_at_most_once
    (E : Engine) (s : State) (Hs : reachable E s) (env : Env) :
  (connects s <= 1)%nat /\
  (connection_cache s = None <-> connects s = 0%nat) /\
  exists connection s',
    get_databricks_connection env s = (Return connection, s') /\
    (connects s' <= 1)%nat /\
    (connection = None \/ connection = Some 1%nat).
Proof.
  destruct (reachable_connection_ok E s Hs) as [[Hc Hn]|[Hn [Hc|Hc]]].
  - split; [lia|]. split; [tauto|].
    unfold_ops. rewrite Hc. destruct (connect_raises env); simpl;
      do 2 eexists; (split; [reflexivity|]); simpl; rewrite Hn; auto.
  - split; [lia|]. split; [split; intro; [congruence | lia]|].
    unfold_ops. rewrite Hc. do 2 eexists.
    split; [reflexivity|]. split; [lia | auto].
  - split; [lia|]. split; [split; intro; [congruence | lia]|].
    unfold_ops. rewrite Hc. do 2 eexists.
    split; [reflexivity|]. split; [lia | auto].
Qed.

Lemma connection_is_established_at_most_once_witness :
  reachable reference_engine cached_state /\
  (connects cached_state <= 1)%nat /\
  (connection_cache cached_state = None <-> connects cached_state = 0%nat) /\
  exists connection s',
    get_databricks_connection (env_up 1) cached_state
      = (Return connection, s') /\
    (connects s' <= 1)%nat /\
    (connection = None \/ connection = Some 1%nat).
Proof.
  split; [exact cached_state_reachable|].
  exact (connection_is_established_at_most_once
           reference_engine cached_state cached_state_reachable (env_up 1)).
Defined.

Lemma step_keeps_handle (E : Engine) (env : Env) (c : Call) (s : State)
    (h : Handle) :
  connection_cache s = Some (Some h) ->
  connection_cache (step E env c s) = Some (Some h).
Proof.
  intro H. destruct c; unfold step; unfold_ops;
    repeat progress (simpl; rewrite ?H);
    repeat match goal with
           | |- context [match ?x with Some _ => _ | None => _ end] =>
               destruct x as [?|] eqn:?
           | |- context [let (_, _) := ?x in _] => destruct x
           | |- context [if ?b then _ else _] => destruct b
           end; simpl; auto.
Qed.

Lemma step_no_handle_no_data (E : Engine) (env : Env) (c : Call)
    (s : State) :
  no_handle_no_data s -> no_handle_no_data (step E env c s).
Proof.
  unfold no_handle_no_data. intros H Hno.
  destruct (connection_cache s) as [[h|]|] eqn:Hc.
  - exfalso. apply (Hno h). apply step_keeps_handle, Hc.
  - destruct H as [Hr Hs]; [discriminate|]. clear Hno.
    unfold empty_entry in *.
    destruct (recent_cache s) as [[? [|? ?]]|] eqn:Er; try contradiction;
      destruct (summary_cache s) as [[? [|? ?]]|] eqn:Es;
      try contradiction;
      destruct c; unfold step; unfold_ops;
      repeat progress (simpl; rewrite ?Hc, ?Er, ?Es);
      repeat match goal with
             | |- context [if ?b then _ else _] => destruct b
             end;
      repeat progress (simpl; rewrite ?Hc, ?Er, ?Es); auto.
  - destruct H as [Hr Hs]; [discriminate|].
    unfold empty_entry in *. revert Hno.
    destruct (recent_cache s) as [[? [|? ?]]|] eqn:Er; try contradiction;
      destruct (summary_cache s) as [[? [|? ?]]|] eqn:Es;
      try contradiction;
      destruct c; unfold step; unfold_ops;
      repeat progress (simpl; rewrite ?Hc, ?Er, ?Es);
      repeat match goal with
             | |- context [if ?b then _ else _] => destruct b
             end;
      repeat progress (simpl; rewrite ?Hc, ?Er, ?Es);
      destruct (connect_raises env);
      repeat progress (simpl; rewrite ?Hc, ?Er, ?Es); auto;
      intro Hno; exfalso; eapply Hno;
      case_faults env; simpl; reflexivity.
Qed.

Lemma reachable_no_handle_no_data (E : Engine) (s : State) :
  reachable E s -> no_handle_no_data s.
Proof.
  intros (rows & history & ->).
  assert (H : no_handle_no_data (initial rows)) by (intros _; split; exact I).
  revert H. generalize (initial rows).
  induction history as [|[env c] history IH]; intros s H; simpl;
    [exact H|].
  apply IH, step_no_handle_no_data, H.
Qed.

(** X3.  Once the single attempt to connect has failed, nothing works any more:
    in every reachable state in which [None] is the cached connection, both
    fetches return empty frames, whatever the table holds and whatever the
    backend would now answer, and [submit_financial_data] rejects every
    submission without touching the state. *)
Theorem without_connection_nothing_works
    (E : Engine) (s : State) (Hs : reachable E s)
    (Hc : connection_cache s = Some None)
    (env : Env) (business_unit : string) (revenue expenses : Q)
    (submitted_by : string) :
  (exists s', fetch_all_data E env s = (Return [], s')) /\
  (exists s', get_summary_stats E env s = (Return [], s')) /\
  submit_financial_data env business_unit revenue expenses submitted_by s
  = (Return (false, "Connection failed"%string), s).
Proof.
  destruct (reachable_no_handle_no_data E s Hs) as [Hr Hsm];
    [rewrite Hc; discriminate|].
  unfold empty_entry in *. unfold_ops. rewrite Hc.
  destruct (recent_cache s) as [[? [|? ?]]|]; try contradiction;
    destruct (summary_cache s) as [[? [|? ?]]|]; try contradiction;
    simpl;
    repeat match goal with
           | |- context [if ?b then _ else _] => destruct b
           end;
    (split; [eexists; reflexivity|]);
    (split; [eexists; reflexivity | reflexivity]).
Qed.

Lemma disconnected_state_reachable :
  reachable reference_engine disconnected_state.
Proof.
  exists [sales_row],
         [(env_connect_down 0, FetchRecent); (env_up 1, Refresh)].
  reflexivity.
Qed.

Lemma without_connection_nothing_works_witness :
  reachable reference_engine disconnected_state /\
  connection_cache disconnected_state = Some None /\
  (exists s', fetch_all_data reference_engine (env_up 2) disconnected_state
              = (Return [], s')) /\
  (exists s', get_summary_stats reference_engine (env_up 2)
                                disconnected_state
              = (Return [], s')) /\
  submit_financial_data (env_up 2) "Sales" 100000 75000 "Alice"
                        disconnected_state
  = (Return (false, "Connection failed"%string), disconnected_state).
Proof.
  split; [exact disconnected_state_reachable|].
  split; [reflexivity|].
  exact (without_connection_nothing_works
           reference_engine disconnected_state disconnected_state_reachable
           eq_refl (env_up 2) "Sales" 100000 75000 "Alice").
Defined.

(** X4.  A fetch that finds its cache entry absent or at least [ttl] old, can
    have a connection and meets a backend that answers, returns the answer
    to its query on the table as it is now, stores it with the time of the
    call, and executes exactly one statement. *)
Theorem cache_miss_queries_the_table
    (E : Engine) (env : Env) (s : State)
    (Hconn : connection_available env s) (Hok : select_ok env) :
  (cache_miss (recent_cache s) (timer env) ->
   exists s',
     fetch_all_data E env s = (Return (select_recent E (table s)), s') /\
     recent_cache s' = Some (timer env, select_recent E (table s)) /\
     statements s' = S (statements s) /\
     table s' = table s) /\
  (cache_miss (summary_cache s) (timer env) ->
   exists s',
     get_summary_stats E env s = (Return (select_summary E (table s)), s') /\
     summary_cache s' = Some (timer env, select_summary E (table s)) /\
     statements s' = S (statements s) /\
     table s' = table s).
Proof.
  destruct Hok as (H1 & H2 & H3 & H4).
  unfold connection_available, cache_miss in *. unfold_ops.
  rewrite H1, H2, H3, H4.
  split; intro Hmiss.
  - destruct (recent_cache s) as [[stamp df]|];
      [destruct (Z.ltb_spec (timer env) (stamp + ttl)); [lia|] |];
      destruct (connection_cache s) as [[h|]|]; try congruence;
      rewrite ?Hconn; simpl; eexists; repeat split.
  - destruct (summary_cache s) as [[stamp df]|];
      [destruct (Z.ltb_spec (timer env) (stamp + ttl)); [lia|] |];
      destruct (connection_cache s) as [[h|]|]; try congruence;
      rewrite ?Hconn; simpl; eexists; repeat split.
Qed.

Lemma env_up_select_ok (now : Z) : select_ok (env_up now).
Proof. repeat split. Qed.

Lemma cached_state_expired :
  connection_available (env_up 30000000) cached_state /\
  cache_miss (recent_cache cached_state) (timer (env_up 30000000)) /\
  cache_miss (summary_cache cached_state) (timer (env_up 30000000)).
Proof.
  split; [discriminate|]. split; simpl; unfold ttl; lia.
Qed.

Lemma cache_miss_queries_the_table_witness :
  connection_available (env_up 30000000) cached_state /\
  select_ok (env_up 30000000) /\
  (cache_miss (recent_cache cached_state) (timer (env_up 30000000)) ->
   exists s',
     fetch_all_data reference_engine (env_up 30000000) cached_state
       = (Return (select_recent reference_engine (table cached_state)), s')
     /\
     recent_cache s'
       = Some (timer (env_up 30000000),
               select_recent reference_engine (table cached_state)) /\
     statements s' = S (statements cached_state) /\
     table s' = table cached_state) /\
  (cache_miss (summary_cache cached_state) (timer (env_up 30000000)) ->
   exists s',
     get_summary_stats reference_engine (env_up 30000000) cached_state
       = (Return (select_summary reference_engine (table cached_state)), s')
     /\
     summary_cache s'
       = Some (timer (env_up 30000000),
               select_summary reference_engine (table cached_state)) /\
     statements s' = S (statements cached_state) /\
     table s' = table cached_state).
Proof.
  split; [exact (proj1 cached_state_expired)|].
  split; [exact (env_up_select_ok 30000000)|].
  exact (cache_miss_queries_the_table reference_engine (env_up 30000000)
           cached_state (proj1 cached_state_expired)
           (env_up_select_ok 30000000)).
Defined.


(* ------------------------------------------------------------------ *)
(** *** The summary statement: one row per business unit *)

Section GroupCounts.

Let unit_in (units : list string) (r : Submission.t) : bool :=
  if in_dec string_dec (Submission.business_unit r) units then true
  else false.

Lemma length_filter_cons (u : string) (units : list string)
    (table : list Submission.t) :
  ~ In u units ->
  List.length (filter (unit_in (u :: units)) table)
  = (List.length (rows_of u table)
     + List.length (filter (unit_in units) table))%nat.
Proof.
  intro Hu. unfold rows_of, unit_in.
  induction table as [|r table IH]; [reflexivity|].
  cbn [filter].
  destruct (in_dec string_dec (Submission.business_unit r) (u :: units))
    as [I1|N1];
    destruct (String.eqb_spec (Submission.business_unit r) u) as [E|E];
    destruct (in_dec string_dec (Submission.business_unit r) units)
      as [I2|N2];
    cbn [List.length]; rewrite ?IH; try lia;
    exfalso; simpl in *; intuition congruence.
Qed.

Lemma length_groups (units : list string) (table : list Submission.t) :
  NoDup units ->
  list_sum (map (fun u => List.length (rows_of u table)) units)
  = List.length (filter (unit_in units) table).
Proof.
  induction 1 as [|u units Hu _ IH].
  - induction table as [|r table IHt]; simpl; [reflexivity | exact IHt].
  - pose proof (length_filter_cons u units table Hu) as H.
    unfold unit_in in *. rewrite H.
    cbn [map list_sum fold_right]. rewrite <- IH. reflexivity.
Qed.

Lemma length_group_by (table : list Submission.t) :
  list_sum (map Summary.submission_count (group_by_business_unit table))
  = List.length table.
Proof.
  unfold group_by_business_unit. rewrite map_map.
  rewrite (map_ext _ (fun u => List.length (rows_of u table)))
    by reflexivity.
  pose proof (length_groups
                (nodup string_dec (map Submission.business_unit table))
                table (NoDup_nodup _ _)) as H.
  unfold unit_in in H. rewrite H.
  f_equal. apply (filter_all_units table).
Qed.

End GroupCounts.

Lemma Forall2_map_eq {A B : Type} (R : A -> A -> Prop) (f : A -> B) :
  (forall a b, R a b -> f a = f b) ->
  forall l l', Forall2 R l l' -> map f l = map f l'.
Proof.
  intros Hf l l'. induction 1 as [|a b l l' Hab _ IH]; simpl;
    [reflexivity|].
  rewrite (Hf a b Hab), IH. reflexivity.
Qed.

(** The business units of the summary rows are those of the groups. *)
Lemma summary_units (E : Engine) (HE : conforms E)
    (table : list Submission.t) :
  Permutation (nodup string_dec (map Submission.business_unit table))
              (map Summary.business_unit (select_summary E table)).
Proof.
  destruct (summary_conforms E HE table) as (groups & Heq & Hperm & _).
  rewrite <- (Permutation_map Summary.business_unit Hperm).
  rewrite <- (Forall2_map_eq _ Summary.business_unit
                (fun a b H => proj1 H) _ _ Heq).
  unfold group_by_business_unit. rewrite map_map.
  rewrite (map_ext _ (fun u => u)) by reflexivity.
  rewrite map_id. reflexivity.
Qed.

Lemma summary_counts (E : Engine) (HE : conforms E)
    (table : list Submission.t) :
  list_sum (map Summary.submission_count (select_summary E table))
  = List.length table.
Proof.
  destruct (summary_conforms E HE table) as (groups & Heq & Hperm & _).
  rewrite <- (Permutation_map Summary.submission_count Hperm).
  rewrite <- (Forall2_map_eq _ Summary.submission_count
                (fun a b H => proj1 (proj2 H)) _ _ Heq).
  apply length_group_by.
Qed.

(** X5.  The summary has exactly one row for every business unit that occurs in
    the table and none for any other; its [submission_count] values add up
    to the number of rows of the table; it is empty exactly when the table
    is. *)
Theorem summary_has_one_row_per_business_unit
    (E : Engine) (HE : conforms E) (table : list Submission.t) :
  NoDup (map Summary.business_unit (select_summary E table)) /\
  (forall unit,
     In unit (map Summary.business_unit (select_summary E table)) <->
     In unit (map Submission.business_unit table)) /\
  list_sum (map Summary.submission_count (select_summary E table))
  = List.length table /\
  (select_summary E table = [] <-> table = []).
Proof.
  pose proof (summary_units E HE table) as Hu.
  assert (Hin : forall unit,
    In unit (map Summary.business_unit (select_summary E table)) <->
    In unit (map Submission.business_unit table)).
  { intro unit. split; intro H.
    - apply (nodup_In string_dec).
      eapply Permutation_in; [symmetry; exact Hu | exact H].
    - eapply Permutation_in; [exact Hu|].
      apply (nodup_In string_dec). exact H. }
  split; [eapply Permutation_NoDup; [exact Hu | apply NoDup_nodup]|].
  split; [exact Hin|]. split; [apply summary_counts, HE|].
  split; intro H.
  - destruct table as [|r table]; [reflexivity|]. exfalso.
    assert (K : In (Submission.business_unit r)
                   (map Summary.business_unit (select_summary E (r :: table))))
      by (apply Hin; left; reflexivity).
    rewrite H in K. exact K.
  - subst table.
    destruct (select_summary E []) as [|g out]; [reflexivity|]. exfalso.
    apply (proj1 (Hin (Summary.business_unit g))). left. reflexivity.
Qed.

Lemma summary_has_one_row_per_business_unit_witness :
  conforms reference_engine /\
  NoDup (map Summary.business_unit
           (select_summary reference_engine
              [sales_row; hr_row; sales_row'])) /\
  (forall unit,
     In unit (map Summary.business_unit
                (select_summary reference_engine
                   [sales_row; hr_row; sales_row'])) <->
     In unit (map Submission.business_unit
                [sales_row; hr_row; sales_row'])) /\
  list_sum (map Summary.submission_count
              (select_summary reference_engine
                 [sales_row; hr_row; sales_row']))
  = List.length [sales_row; hr_row; sales_row'] /\
  (select_summary reference_engine [sales_row; hr_row; sales_row'] = [] <->
   [sales_row; hr_row; sales_row'] = []).
Proof.
  split; [exact reference_engine_conforms|].
  exact (summary_has_one_row_per_business_unit
           reference_engine reference_engine_conforms
           [sales_row; hr_row; sales_row']).
Defined.

(* ------------------------------------------------------------------ *)
(** *** The recent-rows statement: the latest 100 *)

Lemma StronglySorted_app_inv {A : Type} (R : A -> A -> Prop) :
  forall l1 l2, StronglySorted R (l1 ++ l2) ->
  forall a b, In a l1 -> In b l2 -> R a b.
Proof.
  induction l1 as [|x l1 IH]; intros l2 H a b Ha Hb; [contradiction|].
  simpl in H. apply StronglySorted_inv in H. destruct H as [Hs Hx].
  destruct Ha as [<-|Ha].
  - eapply Forall_forall; [exact Hx|]. apply in_or_app. right. exact Hb.
  - eapply IH; eassumption.
Qed.

Lemma recent_split (E : Engine) (HE : conforms E)
    (table : list Submission.t) :
  exists older,
    Permutation table (select_recent E table ++ older) /\
    List.length (select_recent E table)
    = Nat.min 100 (List.length table) /\
    forall a b, In a (select_recent E table) -> In b older -> date_desc a b.
Proof.
  destruct (recent_conforms E HE table) as (ordered & Hperm & Hsorted & ->).
  exists (skipn 100 ordered). split; [|split].
  - rewrite firstn_skipn. exact Hperm.
  - rewrite length_firstn. rewrite (Permutation_length Hperm). reflexivity.
  - apply StronglySorted_app_inv. rewrite firstn_skipn. exact Hsorted.
Qed.

(** X6.  [fetch_all_data]'s statement returns [min(100, n)] of the [n] rows of
    the table, and no row it leaves out is later than a row it returns: the
    returned rows together with the rows left out are the table, and every
    row left out has a [submission_date] at most that of every returned
    row.  In particular a table of at most 100 rows is returned whole. *)
Theorem recent_rows_are_the_latest
    (E : Engine) (HE : conforms E) (table : list Submission.t) :
  (exists older,
     Permutation table (select_recent E table ++ older) /\
     List.length (select_recent E table)
     = Nat.min 100 (List.length table) /\
     forall a b,
       In a (select_recent E table) -> In b older -> date_desc a b) /\
  ((List.length table <= 100)%nat ->
   Permutation table (select_recent E table)).
Proof.
  split; [apply recent_split, HE|].
  intro Hlen.
  destruct (recent_conforms E HE table) as (ordered & Hperm & _ & ->).
  rewrite firstn_all2; [exact Hperm|].
  rewrite <- (Permutation_length Hperm). exact Hlen.
Qed.

Lemma recent_rows_are_the_latest_witness :
  conforms reference_engine /\
  (exists older,
     Permutation [sales_row; hr_row; sales_row']
       (select_recent reference_engine [sales_row; hr_row; sales_row']
        ++ older) /\
     List.length
       (select_recent reference_engine [sales_row; hr_row; sales_row'])
     = Nat.min 100 (List.length [sales_row; hr_row; sales_row']) /\
     forall a b,
       In a (select_recent reference_engine
               [sales_row; hr_row; sales_row']) ->
       In b older -> date_desc a b) /\
  ((List.length [sales_row; hr_row; sales_row'] <= 100)%nat ->
   Permutation [sales_row; hr_row; sales_row']
     (select_recent reference_engine [sales_row; hr_row; sales_row'])).
Proof.
  split; [exact reference_engine_conforms|].
  exact (recent_rows_are_the_latest
           reference_engine reference_engine_conforms
           [sales_row; hr_row; sales_row']).
Defined.

(* ================================================================== *)
(** ** The page *)







(* ------------------------------------------------------------------ *)
(** *** [main] *)

(** The form with and without the rerun flag changes the state alike. *)
Lemma show_data_entry_form_rerun_state (env : Env) (submitted : bool)
    (business_unit : string) (revenue expenses : Q) (submitted_by : string)
    (s : State) :
  snd (show_data_entry_form_rerun env submitted business_unit revenue
                                  expenses submitted_by s)
  = snd (show_data_entry_form env submitted business_unit revenue expenses
                              submitted_by s).
Proof.
  unfold show_data_entry_form_rerun, show_data_entry_form.
  destruct submitted; [|reflexivity]. unfold bind.
  destruct (submit_financial_data env business_unit revenue expenses
                                  submitted_by s) as [[[[|] result]|e] s1];
    reflexivity.
Qed.





(* ================================================================== *)
(** ** The submission id and the random bits it keeps *)

Section IdBits.

Import Uuid.

Lemma append_assoc (a b c : string) : ((a ++ b) ++ c = a ++ (b ++ c))%string.
Proof.
  induction a as [|x a IH]; simpl; [reflexivity|]. rewrite IH. reflexivity.
Qed.

Lemma append_inj_len : forall (a b c d : string),
  String.length a = String.length b ->
  (a ++ c = b ++ d)%string -> a = b /\ c = d.
Proof.
  induction a as [|x a IH]; intros [|y b] c d Hlen H; simpl in *;
    try discriminate.
  - split; [reflexivity | exact H].
  - injection H as -> H. injection Hlen as Hlen.
    destruct (IH b c d Hlen H) as [-> ->]. split; reflexivity.
Qed.

Lemma substring_prefix_app : forall (a b : string),
  substring 0 (String.length a) (a ++ b) = a.
Proof.
  induction a as [|x a IH]; intro b; simpl.
  - destruct b; reflexivity.
  - rewrite IH. reflexivity.
Qed.

Lemma hex_digits_acc (k : nat) : forall (n : N) (acc : string),
  hex_digits k n acc = (hex_digits k n "" ++ acc)%string.
Proof.
  induction k as [|k IH]; intros n acc; [reflexivity|].
  cbn [hex_digits]. rewrite (IH _ (String _ acc)), (IH _ (String _ "")).
  rewrite append_assoc. reflexivity.
Qed.

(** The digits of the high part are written after those of the low part. *)
Lemma hex_digits_split (low high : nat) : forall (n : N) (acc : string),
  hex_digits (low + high) n acc
  = hex_digits high (n / 16 ^ N.of_nat low) (hex_digits low n acc).
Proof.
  induction low as [|low IH]; intros n acc.
  - cbn [Nat.add hex_digits N.of_nat]. rewrite N.pow_0_r, N.div_1_r.
    reflexivity.
  - cbn [Nat.add hex_digits]. rewrite IH.
    rewrite Nat2N.inj_succ, N.pow_succ_r', N.Div0.div_div. reflexivity.
Qed.

Lemma hex_char_inj (a b : N) :
  hex_char a = hex_char b -> (a mod 16 = b mod 16)%N.
Proof.
  unfold hex_char.
  assert (Ha : (a mod 16 < 16)%N) by (apply N.mod_lt; discriminate).
  assert (Hb : (b mod 16 < 16)%N) by (apply N.mod_lt; discriminate).
  assert (small : forall x : N, (x < 16)%N ->
            In x [0; 1; 2; 3; 4; 5; 6; 7; 8; 9; 10; 11; 12; 13; 14; 15]%N).
  { intros x Hx. simpl.
    destruct x as [|p]; [tauto|].
    do 4 (destruct p as [p|p|]; try tauto); exfalso; lia. }
  generalize (small _ Ha) (small _ Hb). clear.
  generalize (a mod 16)%N (b mod 16)%N. intros x y Hx Hy.
  simpl in Hx, Hy.
  repeat match goal with
         | H : _ \/ _ |- _ => destruct H as [H|H]
         end; try contradiction; subst x y; vm_compute;
    intro H; solve [reflexivity | discriminate H].
Qed.

(** Equal digit strings come from numbers that agree on as many
    hexadecimal digits. *)
Lemma hex_digits_inj (k : nat) : forall n m : N,
  hex_digits k n "" = hex_digits k m "" ->
  (n mod 16 ^ N.of_nat k = m mod 16 ^ N.of_nat k)%N.
Proof.
  induction k as [|k IH]; intros n m H.
  - cbn [N.of_nat]. rewrite N.pow_0_r, !N.mod_1_r. reflexivity.
  - cbn [hex_digits] in H.
    rewrite (hex_digits_acc k (n / 16)), (hex_digits_acc k (m / 16)) in H.
    apply append_inj_len in H; [|rewrite !hex_digits_length; reflexivity].
    destruct H as [H1 H2]. injection H2 as H2.
    apply hex_char_inj in H2. apply IH in H1.
    rewrite Nat2N.inj_succ, N.pow_succ_r', !N.Div0.mod_mul_r.
    rewrite H1, H2. reflexivity.
Qed.

Lemma shifted_constant_high_bit (c k n : N) :
  (k <= 96)%N -> (N.log2 c < 96 - k)%N ->
  N.testbit (N.shiftl c k) (n + 96) = false.
Proof.
  intros Hk Hc. rewrite N.shiftl_spec_high' by lia.
  apply N.bits_above_log2. lia.
Qed.

(** Forcing the version and the variant leaves the top 32 bits alone. *)
Lemma uuid4_high_bits (urandom : N) :
  (uuid4 urandom / 2 ^ 96 = id_bits urandom)%N.
Proof.
  unfold id_bits. rewrite <- !N.shiftr_div_pow2.
  apply N.bits_inj. intro n. rewrite !N.shiftr_spec'.
  unfold uuid4. cbv zeta.
  rewrite N.lor_spec, N.ldiff_spec, N.lor_spec, N.ldiff_spec.
  rewrite !shifted_constant_high_bit
    by (vm_compute; (reflexivity || discriminate)).
  rewrite !Bool.orb_false_r, !Bool.andb_true_r. reflexivity.
Qed.

Lemma id_bits_lt (urandom : N) : (id_bits urandom < 2 ^ 32)%N.
Proof.
  unfold id_bits. apply N.Div0.div_lt_upper_bound.
  replace (2 ^ 96 * 2 ^ 32)%N with (2 ^ 128)%N
    by (vm_compute; reflexivity).
  apply N.mod_lt. vm_compute. discriminate.
Qed.

(** The id shows the top 32 bits of the random value, and nothing else. *)
Lemma submission_id_digits (urandom : N) :
  submission_id urandom
  = ("sub_" ++ hex_digits 8 (id_bits urandom) "")%string.
Proof.
  unfold submission_id, hex. f_equal.
  change 32%nat with (24 + 8)%nat. rewrite hex_digits_split.
  rewrite hex_digits_acc.
  replace (16 ^ N.of_nat 24)%N with (2 ^ 96)%N by (vm_compute; reflexivity).
  rewrite uuid4_high_bits.
  rewrite <- (substring_prefix_app (hex_digits 8 (id_bits urandom) "")
                (hex_digits 24 (uuid4 urandom) "")) at 2.
  rewrite hex_digits_length. reflexivity.
Qed.

Lemma sub_prefix_inj (a b : string) :
  ("sub_" ++ a = "sub_" ++ b)%string -> a = b.
Proof.
  simpl. intro H. injection H as H. exact H.
Qed.

End IdBits.

(** X9.  Two submissions get the same id exactly when the top 32 bits of their
    random values coincide: of the 128 random bits only these reach the id,
    and the version and variant bits that [uuid4] forces are not among
    them. *)
Theorem submission_ids_collide_iff_top_32_bits_agree (urandom urandom' : N) :
  submission_id urandom = submission_id urandom' <->
  id_bits urandom = id_bits urandom'.
Proof.
  rewrite !submission_id_digits. split; intro H.
  - apply sub_prefix_inj, hex_digits_inj in H.
    replace (16 ^ N.of_nat 8)%N with (2 ^ 32)%N in H
      by (vm_compute; reflexivity).
    rewrite !N.mod_small in H by apply id_bits_lt. exact H.
  - rewrite H. reflexivity.
Qed.

(* ================================================================== *)
(** ** What the readers see *)







